(** * SessionManager: session-state synchronisation of the studio front end

    A shallow embedding of
    [frontend/src/components/views/session/manager.tsx].  The component keeps
    the session list and the current session in a shared store, talks to the
    backend through [sessionAPI], and persists the sidebar flag in the
    browser's local storage.  Handlers are written in a small state and
    exception monad so that [try]/[catch]/[finally] and the early [return]s
    of the source stay visible. *)

From Stdlib Require Import ZArith String Ascii List Bool Lia.
From stdpp Require Import base option list gmap strings.

Local Open Scope Z_scope.
Local Open Scope string_scope.

(** ** Data model *)

(** Modelled from the spec: the [Session] type of [types/datamodel], whose
    declaration is not among the sources.  A session has an identifier
    assigned by the backend (absent on a draft; a [number], here an integer),
    an owner identifier and display fields.  The manager only reads [id]. *)
Record Session := mkSession {
  id : option Z;
  user_id : option string;
  name : string
}.

(** [Partial<Session>]: every field optional. *)
Record PartialSession := mkPartial {
  p_id : option Z;
  p_user_id : option string;
  p_name : option string
}.

Record User := mkUser { email : option string }.

#[global] Instance Session_eq_dec : EqDecision Session.
Proof. solve_decision. Defined.

(** Modelled from the spec: the failures of the collaborator (network,
    authorisation, unknown session, malformed draft), and the [SyntaxError]
    of [JSON.parse]. *)
Inductive Error :=
| NetworkError | AuthError | NotFoundError | ValidationError | SyntaxError.

(** [user?.email] used as a condition: the address when [user] is there and
    the address is a non-empty string, as TypeScript narrows it. *)
Definition user_email (user : option User) : option string :=
  match user with
  | Some u =>
      match email u with
      | Some e => if decide (e = EmptyString) then None else Some e
      | None => None
      end
  | None => None
  end.

(** A [number | undefined] used as a condition: [undefined] and [0] are
    falsy. *)
Definition truthy_id (i : option Z) : option Z :=
  match i with
  | Some n => if decide (n = 0) then None else Some n
  | None => None
  end.

(** [sessionAPI] of [./api]: the remote collaborator, taken as a parameter.
    Each operation either resolves with a value or rejects with an error. *)
Record SessionAPI := mkAPI {
  listSessions : string -> Error + list Session;
  createSession : PartialSession -> string -> Error + Session;
  updateSession : Z -> PartialSession -> string -> Error + Session;
  deleteSession : Z -> string -> Error + unit;
  getSession : Z -> string -> Error + Session
}.

(** ** Observable effects *)

Inductive Event :=
| ApiListSessions (userId : string)
| ApiCreateSession (sessionData : PartialSession) (userId : string)
| ApiUpdateSession (sessionId : Z) (sessionData : PartialSession) (userId : string)
| ApiDeleteSession (sessionId : Z) (userId : string)
| ApiGetSession (sessionId : Z) (userId : string)
| ConsoleError (label : string)
| ConsoleLog (label : string)
| MessageError (content : string)
| MessageSuccess (content : string).

Definition is_api_call (ev : Event) : bool :=
  match ev with
  | ApiListSessions _ | ApiCreateSession _ _ | ApiUpdateSession _ _ _
  | ApiDeleteSession _ _ | ApiGetSession _ _ => true
  | _ => false
  end.

Definition is_notification (ev : Event) : bool :=
  match ev with
  | MessageError _ | MessageSuccess _ => true
  | _ => false
  end.

(** ** Component state *)

(** Modelled from the spec: the store behind [useConfigStore] (the hook is
    not among the sources), a plain holder of the current session and of
    the list, with one setter for each. *)
Module Store.
Record t := mk {
  session : option Session;
  sessions : list Session
}.
End Store.

(** Local [useState] cells of the component, the store, and the effects
    issued so far (oldest first). *)
Record World := mkWorld {
  isLoading : bool;
  isEditorOpen : bool;
  editingSession : option Session;
  store : Store.t;
  trace : list Event
}.

(** ** The handler monad *)

Inductive Outcome (A : Type) :=
| Returned (a : A)
| Thrown (e : Error).
Arguments Returned {A} a.
Arguments Thrown {A} e.

Definition M (A : Type) : Type := World -> Outcome A * World.

Definition ret {A} (a : A) : M A := fun w => (Returned a, w).

Definition bind {A B} (m : M A) (k : A -> M B) : M B :=
  fun w =>
    match m w with
    | (Returned a, w') => k a w'
    | (Thrown e, w') => (Thrown e, w')
    end.

Definition throw {A} (e : Error) : M A := fun w => (Thrown e, w).

#[global] Instance M_ret : MRet M := @ret.
#[global] Instance M_bind : MBind M := fun A B k m => bind m k.

(** [try { body } catch (error) { handler }] *)
Definition try_catch {A} (body : M A) (handler : Error -> M A) : M A :=
  fun w =>
    match body w with
    | (Returned a, w') => (Returned a, w')
    | (Thrown e, w') => handler e w'
    end.

(** [try { body } finally { fin }]: [fin] runs on both exits and an error
    raised by [fin] replaces the pending outcome. *)
Definition try_finally {A} (body : M A) (fin : M unit) : M A :=
  fun w =>
    match body w with
    | (r, w') =>
        match fin w' with
        | (Returned _, w'') => (r, w'')
        | (Thrown e, w'') => (Thrown e, w'')
        end
    end.

Definition try_catch_finally {A} (body : M A) (handler : Error -> M A)
    (fin : M unit) : M A :=
  try_finally (try_catch body handler) fin.

Definition emit (ev : Event) : M unit :=
  fun w => (Returned tt,
            mkWorld (isLoading w) (isEditorOpen w) (editingSession w)
                    (store w) (trace w ++ [ev])).

(** [await call]: the request is issued, then the promise resolves or
    rejects. *)
Definition await {A} (call : Event) (result : Error + A) : M A :=
  emit call ;;
  match result with
  | inr a => ret a
  | inl e => throw e
  end.

(** State setters. *)
Definition setIsLoading (b : bool) : M unit :=
  fun w => (Returned tt,
            mkWorld b (isEditorOpen w) (editingSession w) (store w) (trace w)).

Definition setIsEditorOpen (b : bool) : M unit :=
  fun w => (Returned tt,
            mkWorld (isLoading w) b (editingSession w) (store w) (trace w)).

Definition setEditingSession (s : option Session) : M unit :=
  fun w => (Returned tt,
            mkWorld (isLoading w) (isEditorOpen w) s (store w) (trace w)).

Definition setSession (s : option Session) : M unit :=
  fun w => (Returned tt,
            mkWorld (isLoading w) (isEditorOpen w) (editingSession w)
                    (Store.mk s (Store.sessions (store w))) (trace w)).

Definition setSessions (l : list Session) : M unit :=
  fun w => (Returned tt,
            mkWorld (isLoading w) (isEditorOpen w) (editingSession w)
                    (Store.mk (Store.session (store w)) l) (trace w)).

(** ** The handlers of [SessionManager]

    The handlers are closures created during a render: [user], [session] and
    [sessions] are the values that render saw, while the setters write to
    the live state. *)
Section SessionManager.

Variable sessionAPI : SessionAPI.
Variable user : option User.
Variable session : option Session.
Variable sessions : list Session.

Definition fetchSessions : M unit :=
  match user_email user with
  | None => ret tt
  | Some userId =>
      try_catch_finally
        (setIsLoading true ;;
         data ← await (ApiListSessions userId)
                       (listSessions sessionAPI userId) ;
         setSessions data ;;
         if negb (bool_decide (is_Some session)) && (0 <? length data)%nat
         then setSession (data !! 0%nat)
         else ret tt)
        (fun error =>
           emit (ConsoleError "Error fetching sessions:") ;;
           emit (MessageError "Error loading sessions"))
        (setIsLoading false)
  end.

Definition handleSaveSession (sessionData : PartialSession) : M unit :=
  match user_email user with
  | None => ret tt
  | Some userId =>
      try_catch
        (match truthy_id (p_id sessionData) with
         | Some sessionId =>
             updated ← await (ApiUpdateSession sessionId sessionData userId)
                              (updateSession sessionAPI sessionId sessionData userId) ;
             setSessions
               ((fun s => if decide (id s = id updated) then updated else s)
                  <$> sessions) ;;
             if bool_decide (session ≫= id = id updated)
             then setSession (Some updated)
             else ret tt
         | None =>
             created ← await (ApiCreateSession sessionData userId)
                              (createSession sessionAPI sessionData userId) ;
             setSessions (created :: sessions) ;;
             setSession (Some created)
         end ;;
         setIsEditorOpen false ;;
         setEditingSession None)
        (fun error =>
           emit (MessageError "Error saving session") ;;
           emit (ConsoleError EmptyString))
  end.

Definition handleDeleteSession (sessionId : Z) : M unit :=
  match user_email user with
  | None => ret tt
  | Some userId =>
      try_catch
        (response ← await (ApiDeleteSession sessionId userId)
                           (deleteSession sessionAPI sessionId userId) ;
         emit (ConsoleLog "response") ;;
         setSessions (filter (fun s => id s ≠ Some sessionId) sessions) ;;
         (if bool_decide (session ≫= id = Some sessionId)
             || (length sessions =? 0)%nat
          then setSession (sessions !! 0%nat)
          else ret tt) ;;
         emit (MessageSuccess "Session deleted"))
        (fun error =>
           emit (ConsoleError "Error deleting session:") ;;
           emit (MessageError "Error deleting session"))
  end.

Definition handleSelectSession (selectedSession : Session) : M unit :=
  match user_email user, truthy_id (id selectedSession) with
  | Some userId, Some sessionId =>
      try_catch_finally
        (setIsLoading true ;;
         data ← await (ApiGetSession sessionId userId)
                       (getSession sessionAPI sessionId userId) ;
         setSession (Some data))
        (fun error =>
           emit (ConsoleError "Error loading session:") ;;
           emit (MessageError "Error loading session"))
        (setIsLoading false)
  | _, _ => ret tt
  end.

End SessionManager.

(** ** User gestures

    A gesture runs the handler of the latest render, whose closure holds the
    store's contents of that moment. *)
Inductive Gesture :=
| LoadSessions
| SaveSession (sessionData : PartialSession)
| DeleteSession (sessionId : Z)
| SelectSession (selectedSession : Session).

Definition dispatch (sessionAPI : SessionAPI) (user : option User)
    (g : Gesture) : M unit :=
  fun w =>
    let session := Store.session (store w) in
    let sessions := Store.sessions (store w) in
    match g with
    | LoadSessions => fetchSessions sessionAPI user session w
    | SaveSession sessionData =>
        handleSaveSession sessionAPI user session sessions sessionData w
    | DeleteSession sessionId =>
        handleDeleteSession sessionAPI user session sessions sessionId w
    | SelectSession selectedSession =>
        handleSelectSession sessionAPI user selectedSession w
    end.

Definition outcome {A} (m : M A) (w : World) : Outcome A := fst (m w).
Definition exec {A} (m : M A) (w : World) : World := snd (m w).

(** The identifiers held by the list, in order. *)
Definition ids (l : list Session) : list (option Z) := id <$> l.

(** ** Failures of the collaborator *)

Definition rejects {A} (r : Error + A) : bool :=
  match r with
  | inl _ => true
  | inr _ => false
  end.

(** Whether the request that the handler of [g] issues for [userId] is
    rejected; a select without identifier issues none. *)
Definition request_rejected (sessionAPI : SessionAPI) (userId : string)
    (g : Gesture) : bool :=
  match g with
  | LoadSessions => rejects (listSessions sessionAPI userId)
  | SaveSession sessionData =>
      match truthy_id (p_id sessionData) with
      | Some sessionId =>
          rejects (updateSession sessionAPI sessionId sessionData userId)
      | None => rejects (createSession sessionAPI sessionData userId)
      end
  | DeleteSession sessionId =>
      rejects (deleteSession sessionAPI sessionId userId)
  | SelectSession selectedSession =>
      match truthy_id (id selectedSession) with
      | Some sessionId => rejects (getSession sessionAPI sessionId userId)
      | None => false
      end
  end.

(** ** Sequences of handler runs

    Besides the handlers a user sets off, the component runs
    [fetchSessions] by itself: the effect on [fetchSessions] fires on the
    first render and after every render in which the callback was made
    anew, that is when the user's address or the current session changed
    (its [useCallback] dependencies).  So a create, an update of the current
    session or a select is followed by a load that replaces the list.

    A run of the component is a sequence of handler runs in which these
    loads are entries of their own, each with the backend that answers it.
    Whether the current session changed is a matter of object identity,
    which the values do not show; a statement about all sequences covers
    every placement of the loads.  Handler runs are taken one after
    another. *)
Definition step (user : option User) (w : World)
    (op : SessionAPI * Gesture) : World :=
  exec (dispatch op.1 user op.2) w.

(** The state before the first handler run and after each of them. *)
Fixpoint run_states (user : option User) (w : World)
    (ops : list (SessionAPI * Gesture)) : list World :=
  match ops with
  | [] => [w]
  | op :: rest => w :: run_states user (step user w op) rest
  end.

Definition unique_ids (w : World) : Prop :=
  NoDup (ids (Store.sessions (store w))).

(** What the backend has to answer for identifiers to stay apart: a create
    is answered with an identifier that the list does not hold yet, and a
    load with sessions of pairwise distinct identifiers. *)
Definition answer_keeps_ids_apart (user : option User) (w : World)
    (op : SessionAPI * Gesture) : Prop :=
  match op.2, user_email user with
  | SaveSession sessionData, Some userId =>
      match truthy_id (p_id sessionData),
            createSession op.1 sessionData userId with
      | None, inr created => id created ∉ ids (Store.sessions (store w))
      | _, _ => True
      end
  | LoadSessions, Some userId =>
      match listSessions op.1 userId with
      | inr data => NoDup (ids data)
      | inl _ => True
      end
  | _, _ => True
  end.

Fixpoint backend_keeps_ids_apart (user : option User) (w : World)
    (ops : list (SessionAPI * Gesture)) : Prop :=
  match ops with
  | [] => True
  | op :: rest =>
      answer_keeps_ids_apart user w op /\
      backend_keeps_ids_apart user (step user w op) rest
  end.

(** ** The sidebar flag and local storage

    [JSON.parse] and [JSON.stringify] are builtins of the runtime.  They are
    modelled on the JSON grammar, over byte strings; a number keeps the text
    it was written with (its value as a double is not represented) and a
    string keeps its escapes as written. *)

#[local] Unset Elimination Schemes.
Inductive JSON :=
| JNull
| JBool (b : bool)
| JNumber (text : string)
| JString (text : string)
| JArray (items : list JSON)
| JObject (members : list (string * JSON)).
#[local] Set Elimination Schemes.

Definition dquote : ascii := "034"%char.
Definition backslash : ascii := "092"%char.

Definition is_ws (c : ascii) : bool :=
  let n := nat_of_ascii c in
  (n =? 32)%nat || (n =? 9)%nat || (n =? 10)%nat || (n =? 13)%nat.

Definition is_digit (c : ascii) : bool :=
  let n := nat_of_ascii c in (48 <=? n)%nat && (n <=? 57)%nat.

Definition is_hex (c : ascii) : bool :=
  let n := nat_of_ascii c in
  is_digit c || ((65 <=? n)%nat && (n <=? 70)%nat)
             || ((97 <=? n)%nat && (n <=? 102)%nat).

Fixpoint skip_ws (s : list ascii) : list ascii :=
  match s with
  | c :: r => if is_ws c then skip_ws r else s
  | [] => []
  end.

Fixpoint take_digits (s : list ascii) : list ascii * list ascii :=
  match s with
  | c :: r =>
      if is_digit c then let (ds, r') := take_digits r in (c :: ds, r')
      else ([], s)
  | [] => ([], [])
  end.

Fixpoint strip_prefix (p s : list ascii) : option (list ascii) :=
  match p, s with
  | [], _ => Some s
  | a :: p', b :: s' => if Ascii.eqb a b then strip_prefix p' s' else None
  | _ :: _, [] => None
  end.

(** number = [ "-" ] int [ "." digits ] [ ("e" | "E") [ "+" | "-" ] digits ] *)
Definition lex_number (s : list ascii) : option (list ascii * list ascii) :=
  let (sign, s1) :=
    match s with
    | c :: r => if Ascii.eqb c "-" then ([c], r) else ([], s)
    | [] => ([], s)
    end in
  let (int, s2) := take_digits s1 in
  match int with
  | [] => None
  | d :: more =>
      if Ascii.eqb d "0" && negb (bool_decide (more = [])) then None
      else
        let frac :=
          match s2 with
          | c :: r =>
              if Ascii.eqb c "." then
                let (ds, r') := take_digits r in
                match ds with
                | [] => None
                | _ => Some (c :: ds, r')
                end
              else Some ([], s2)
          | [] => Some ([], s2)
          end in
        match frac with
        | None => None
        | Some (fr, s3) =>
            match s3 with
            | c :: r =>
                if Ascii.eqb c "e" || Ascii.eqb c "E" then
                  let (esign, r1) :=
                    match r with
                    | c' :: r' =>
                        if Ascii.eqb c' "+" || Ascii.eqb c' "-"
                        then ([c'], r') else ([], r)
                    | [] => ([], r)
                    end in
                  let (ds, r2) := take_digits r1 in
                  match ds with
                  | [] => None
                  | _ => Some ((sign ++ int ++ fr ++ c :: esign ++ ds)%list, r2)
                  end
                else Some ((sign ++ int ++ fr)%list, s3)
            | [] => Some ((sign ++ int ++ fr)%list, s3)
            end
        end
  end.

(** The characters of a string up to its closing quote: no control
    character, and a backslash only in front of an escape. *)
Fixpoint lex_string (s : list ascii) : option (list ascii * list ascii) :=
  match s with
  | [] => None
  | c :: r =>
      if Ascii.eqb c dquote then Some ([], r)
      else if Ascii.eqb c backslash then
        match r with
        | e :: r1 =>
            if Ascii.eqb e "u" then
              match r1 with
              | h1 :: h2 :: h3 :: h4 :: r2 =>
                  if is_hex h1 && is_hex h2 && is_hex h3 && is_hex h4 then
                    match lex_string r2 with
                    | Some (t, r') => Some (c :: e :: h1 :: h2 :: h3 :: h4 :: t, r')
                    | None => None
                    end
                  else None
              | _ => None
              end
            else if Ascii.eqb e dquote || Ascii.eqb e backslash
                    || Ascii.eqb e "/" || Ascii.eqb e "b" || Ascii.eqb e "f"
                    || Ascii.eqb e "n" || Ascii.eqb e "r" || Ascii.eqb e "t"
            then
              match lex_string r1 with
              | Some (t, r') => Some (c :: e :: t, r')
              | None => None
              end
            else None
        | [] => None
        end
      else if (nat_of_ascii c <? 32)%nat then None
      else
        match lex_string r with
        | Some (t, r') => Some (c :: t, r')
        | None => None
        end
  end.

(** value, the elements of an array after its bracket, and the members of
    an object after its brace.  [fuel] bounds the number of nested calls;
    every call is made after at least one character was read. *)
Fixpoint parse_value (fuel : nat) (s : list ascii)
    : option (JSON * list ascii) :=
  match fuel with
  | O => None
  | S fuel' =>
      match skip_ws s with
      | [] => None
      | c :: r =>
          if Ascii.eqb c dquote then
            match lex_string r with
            | Some (t, r') => Some (JString (string_of_list_ascii t), r')
            | None => None
            end
          else if Ascii.eqb c "[" then
            match strip_prefix ["]"%char] (skip_ws r) with
            | Some r' => Some (JArray [], r')
            | None => parse_items fuel' r []
            end
          else if Ascii.eqb c "{" then
            match strip_prefix ["}"%char] (skip_ws r) with
            | Some r' => Some (JObject [], r')
            | None => parse_members fuel' r []
            end
          else if Ascii.eqb c "-" || is_digit c then
            match lex_number (c :: r) with
            | Some (t, r') => Some (JNumber (string_of_list_ascii t), r')
            | None => None
            end
          else
            match strip_prefix (list_ascii_of_string "true") (c :: r) with
            | Some r' => Some (JBool true, r')
            | None =>
                match strip_prefix (list_ascii_of_string "false") (c :: r) with
                | Some r' => Some (JBool false, r')
                | None =>
                    match strip_prefix (list_ascii_of_string "null") (c :: r) with
                    | Some r' => Some (JNull, r')
                    | None => None
                    end
                end
            end
      end
  end
with parse_items (fuel : nat) (s : list ascii) (acc : list JSON)
    : option (JSON * list ascii) :=
  match fuel with
  | O => None
  | S fuel' =>
      match parse_value fuel' s with
      | Some (v, r) =>
          match skip_ws r with
          | c :: r' =>
              if Ascii.eqb c "," then parse_items fuel' r' (v :: acc)
              else if Ascii.eqb c "]" then Some (JArray (rev (v :: acc)), r')
              else None
          | [] => None
          end
      | None => None
      end
  end
with parse_members (fuel : nat) (s : list ascii)
    (acc : list (string * JSON)) : option (JSON * list ascii) :=
  match fuel with
  | O => None
  | S fuel' =>
      match strip_prefix [dquote] (skip_ws s) with
      | Some r0 =>
          match lex_string r0 with
          | Some (k, r1) =>
              match strip_prefix [":"%char] (skip_ws r1) with
              | Some r2 =>
                  match parse_value fuel' r2 with
                  | Some (v, r3) =>
                      let member := (string_of_list_ascii k, v) in
                      match skip_ws r3 with
                      | c :: r4 =>
                          if Ascii.eqb c ","
                          then parse_members fuel' r4 (member :: acc)
                          else if Ascii.eqb c "}"
                          then Some (JObject (rev (member :: acc)), r4)
                          else None
                      | [] => None
                      end
                  | None => None
                  end
              | None => None
              end
          | None => None
          end
      | None => None
      end
  end.

(** [JSON.parse text]: the value, or [None] where the builtin throws a
    [SyntaxError]. *)
Definition JSON_parse (text : string) : option JSON :=
  let s := list_ascii_of_string text in
  match parse_value (2 * length s + 2) s with
  | Some (v, r) =>
      match skip_ws r with
      | [] => Some v
      | _ :: _ => None
      end
  | None => None
  end.

Definition quoted (t : string) : string :=
  String dquote (t ++ String dquote EmptyString).

Fixpoint join (sep : string) (l : list string) : string :=
  match l with
  | [] => EmptyString
  | [x] => x
  | x :: rest => x ++ sep ++ join sep rest
  end.

(** [JSON.stringify value] for a value of JSON shape, without indentation. *)
Fixpoint JSON_stringify (v : JSON) : string :=
  match v with
  | JNull => "null"
  | JBool true => "true"
  | JBool false => "false"
  | JNumber t => t
  | JString t => quoted t
  | JArray items => "[" ++ join "," (map JSON_stringify items) ++ "]"
  | JObject members =>
      "{" ++ join "," (map (fun m => quoted (fst m) ++ ":"
                                       ++ JSON_stringify (snd m)) members)
          ++ "}"
  end.

(** Truthiness ([ToBoolean]): [null], [false], zero and the empty string are
    falsy.  A number is zero when the digits before its exponent are all
    zero. *)
Fixpoint mantissa_nonzero (s : list ascii) : bool :=
  match s with
  | [] => false
  | c :: r =>
      if Ascii.eqb c "e" || Ascii.eqb c "E" then false
      else (is_digit c && negb (Ascii.eqb c "0")) || mantissa_nonzero r
  end.

Definition ToBoolean (v : JSON) : bool :=
  match v with
  | JNull => false
  | JBool b => b
  | JNumber t => mantissa_nonzero (list_ascii_of_string t)
  | JString t => negb (bool_decide (t = EmptyString))
  | JArray _ | JObject _ => true
  end.

(** The browser's [localStorage]; [window] is [None] while rendering on the
    server, where the component touches no storage. *)
Abbreviation Storage := (gmap string string).

Definition sidebarKey : string := "sessionSidebar".

(** The initialiser of the [isSidebarOpen] state. *)
Definition initialSidebarOpen (window : option Storage) : Outcome JSON :=
  match window with
  | Some localStorage =>
      match localStorage !! sidebarKey with
      | Some stored =>
          match JSON_parse stored with
          | Some value => Returned value
          | None => Thrown SyntaxError
          end
      | None => Returned (JBool true)
      end
  | None => Returned (JBool true)
  end.

(** The effect that depends on [isSidebarOpen]. *)
Definition persistSidebarOpen (isSidebarOpen : JSON)
    (window : option Storage) : option Storage :=
  match window with
  | Some localStorage =>
      Some (<[sidebarKey := JSON_stringify isSidebarOpen]> localStorage)
  | None => None
  end.

Record SidebarState := mkSidebar {
  isSidebarOpen : JSON;
  window : option Storage
}.

(** First render of the component on a (re)loaded page: the state is
    initialised, then the effect runs. *)
Definition mount (window : option Storage) : Outcome SidebarState :=
  match initialSidebarOpen window with
  | Returned value =>
      Returned (mkSidebar value (persistSidebarOpen value window))
  | Thrown e => Thrown e
  end.

(** [onToggle]: the state becomes [!isSidebarOpen]; the effect runs with the
    new value. *)
Definition onToggle (st : SidebarState) : SidebarState :=
  let value := JBool (negb (ToBoolean (isSidebarOpen st))) in
  mkSidebar value (persistSidebarOpen value (window st)).

(** ** The editor callbacks and the render

    [onEditSession] is handed to the sidebar, whose props are declared
    outside the sources; [None] stands for a call without a session. *)
Definition onEditSession (session : option Session) : M unit :=
  setEditingSession session ;; setIsEditorOpen true.

(** [onCancel] of the editor. *)
Definition onCancel : M unit :=
  setIsEditorOpen false ;; setEditingSession None.

(** Everything that runs in the component: a handler, set off by the user
    or, for a load, by the component's own effect, answered by some backend;
    or one of the editor callbacks. *)
Inductive Action :=
| Handle (sessionAPI : SessionAPI) (g : Gesture)
| EditSession (session : option Session)
| CancelEditor.

Definition act (user : option User) (a : Action) : M unit :=
  match a with
  | Handle sessionAPI g => dispatch sessionAPI user g
  | EditSession session => onEditSession session
  | CancelEditor => onCancel
  end.

Definition run (user : option User) (w : World) (l : list Action) : World :=
  fold_left (fun w a => exec (act user a) w) l w.

Definition is_handle (a : Action) : bool :=
  match a with
  | Handle _ _ => true
  | _ => false
  end.

(** What the main pane renders. *)
Inductive Pane :=
| ChatView (session : Session)
| NoSessionSelected.

Definition mainPane (w : World) : Pane :=
  match Store.session (store w) with
  | Some session =>
      if (0 <? length (Store.sessions (store w)))%nat
      then ChatView session
      else NoSessionSelected
  | None => NoSessionSelected
  end.

(** The requests among the effects, and the user a request is made for. *)
Definition requests (t : list Event) : list Event :=
  filter (fun ev => is_api_call ev = true) t.

Definition request_user (ev : Event) : option string :=
  match ev with
  | ApiListSessions userId | ApiCreateSession _ userId
  | ApiUpdateSession _ _ userId | ApiDeleteSession _ userId
  | ApiGetSession _ userId => Some userId
  | _ => None
  end.

Definition editor_consistent (w : World) : Prop :=
  isEditorOpen w = false -> editingSession w = None.

(** ** RAView: the research assistant view

    An embedding of [views/ra/ra.tsx].  [fetchJSON] of [utils] is not among
    the sources: the view hands it two callbacks, modelled here as state
    transformers, and what is recorded of the call is its address. *)
Module RAView.

(** Modelled from the spec: the answer of the backend, a status flag with a
    message and, on success, the payload; [IStatus] is the flag with the
    message.  A chat message is kept as its text. *)
Record IStatus := mkStatus {
  status : bool;
  message : string
}.

Record Answer := mkAnswer {
  a_status : bool;
  a_message : string;
  a_data : list string
}.

Inductive Effect :=
| FetchJSON (url : string)
| SetLocalStorage (name : string) (value : JSON)
| ConsoleLog (label : string)
| MessageSuccess (content : string)
| MessageError (content : string).

Record State := mkState {
  loading : bool;
  messages : list string;
  error : option IStatus;
  effects : list Effect
}.

(** A callback runs to its end or stops at a [TypeError]. *)
Inductive Completion := Done | TypeError.

(** The cells as [useState] initialises them. *)
Definition initial : State :=
  mkState false [] (Some (mkStatus true "All good")) [].

(** A template literal prints an [undefined] part as the word. *)
Definition interpolate (part : option string) : string :=
  default "undefined" part.

Definition fetchMessagesUrl (serverUrl : option string)
    (user : option User) : string :=
  interpolate serverUrl ++ "/messages?user_id="
    ++ interpolate (user ≫= email).

(** [onSuccess (data : any)]: [None] is a [null] or [undefined] answer, on
    which reading [data.message] throws. *)
Definition onSuccess (data : option Answer) (st : State)
    : Completion * State :=
  match data with
  | Some d =>
      if a_status d then
        (Done,
         mkState false (a_data d) (error st)
                 (effects st ++ [ConsoleLog "******* messages received ";
                                 MessageSuccess (a_message d)]))
      else
        (Done,
         mkState false (messages st) (error st)
                 (effects st ++ [MessageError (a_message d)]))
  | None => (TypeError, st)
  end.

Definition onError (err : IStatus) (st : State) : Completion * State :=
  (Done,
   mkState false (messages st) (Some err)
           (effects st ++ [MessageError (message err)])).

(** [fetchMessages] up to the call of [fetchJSON]. *)
Definition fetchMessages (serverUrl : option string) (user : option User)
    (st : State) : State :=
  mkState true (messages st) None
          (effects st ++ [FetchJSON (fetchMessagesUrl serverUrl user)]).

(** The effect on [config]: it hands the value to [setLocalStorage] of
    [utils] (not among the sources; what is recorded is the call) on the
    first render and whenever [config] changes. *)
Definition persistConfig (config : JSON) (st : State) : State :=
  mkState (loading st) (messages st) (error st)
          (effects st ++ [SetLocalStorage "ara_config" config]).

(** The effects of the first render, in the order the component declares
    them: [config] is still the [null] of its [useState], then the fetch
    if a user object is there. *)
Definition onMount (serverUrl : option string) (user : option User)
    (st : State) : State :=
  let st1 := persistConfig JNull st in
  match user with
  | Some _ => fetchMessages serverUrl user st1
  | None => st1
  end.

End RAView.

(** ** Sample data *)

Definition alice : option User := Some (mkUser (Some "alice@example.org")).
Definition sessionA : Session := mkSession (Some 1) (Some "alice@example.org") "A".
Definition sessionB : Session := mkSession (Some 2) (Some "alice@example.org") "B".
Definition sessionC : Session := mkSession (Some 3) (Some "alice@example.org") "C".
Definition draft : PartialSession := mkPartial None None (Some "C").
Definition draftB : PartialSession := mkPartial (Some 2) None (Some "B2").

(** A backend on which every request succeeds. *)
Definition backend_ok : SessionAPI :=
  mkAPI (fun _ => inr [sessionA; sessionB])
        (fun _ _ => inr sessionC)
        (fun i d _ => inr (mkSession (Some i) (Some "alice@example.org")
                                     (default EmptyString (p_name d))))
        (fun _ _ => inr tt)
        (fun i _ => inr (mkSession (Some i) (Some "alice@example.org") "full")).

(** A backend that is unreachable. *)
Definition backend_down : SessionAPI :=
  mkAPI (fun _ => inl NetworkError) (fun _ _ => inl NetworkError)
        (fun _ _ _ => inl NetworkError) (fun _ _ => inl NotFoundError)
        (fun _ _ => inl NotFoundError).

Definition world_of (current : option Session) (l : list Session) : World :=
  mkWorld false false None (Store.mk current l) [].

(** A backend that answers a create with an identifier already in use. *)
Definition backend_reusing_id : SessionAPI :=
  mkAPI (fun _ => inr [sessionA])
        (fun _ _ => inr (mkSession (Some 1) (Some "alice@example.org") "C"))
        (fun _ _ _ => inl NotFoundError) (fun _ _ => inr tt)
        (fun _ _ => inl NotFoundError).

(** A backend that assigns a new identifier on create but lists two
    sessions under one identifier. *)
Definition backend_listing_twice : SessionAPI :=
  mkAPI (fun _ => inr [sessionA;
                       mkSession (Some 1) (Some "alice@example.org") "A again"])
        (fun _ _ => inr sessionC)
        (fun _ _ _ => inl NotFoundError) (fun _ _ => inr tt)
        (fun _ _ => inl NotFoundError).

(** * Proofs *)

Ltac run_handler :=
  unfold dispatch, outcome, exec, fetchSessions, handleSaveSession,
    handleDeleteSession, handleSelectSession, try_catch_finally, try_finally,
    try_catch, await, emit, setIsLoading, setIsEditorOpen, setEditingSession,
    setSession, setSessions, throw, mret, M_ret, ret, mbind, M_bind, bind;
  simpl.

(** ** Basic facts about the guards *)

Lemma user_email_None (user : option User) :
  user_email user = None <->
  user = None \/ exists u, user = Some u /\ (email u = None \/ email u = Some EmptyString).
Proof.
  unfold user_email. split.
  - destruct user as [u|]; [right | by left].
    exists u. split; [done|].
    destruct (email u) as [e|]; [|by left].
    destruct (decide (e = EmptyString)) as [->|]; [by right | done].
  - intros [-> | (u & -> & [-> | ->])]; done.
Qed.

Lemma truthy_id_None (i : option Z) :
  truthy_id i = None <-> i = None \/ i = Some 0.
Proof.
  unfold truthy_id. split.
  - destruct i as [n|]; [|by left].
    destruct (decide (n = 0)) as [->|]; [by right | done].
  - intros [-> | ->]; done.
Qed.

Lemma truthy_id_Some (i : option Z) (n : Z) :
  truthy_id i = Some n <-> i = Some n /\ n <> 0.
Proof.
  unfold truthy_id. split.
  - destruct i as [m|]; [|done].
    destruct (decide (m = 0)); [done|]. intros [= <-]. done.
  - intros [-> Hn]. by destruct (decide (n = 0)).
Qed.

(** ** The handlers, one gesture at a time *)

(** C9.  When the user identifier ([user.email]) is absent or empty, every
    operation (load, save, delete, select) returns at once as a silent
    no-op: the whole state, including the record of requests and
    notifications, is exactly as before. *)
Theorem no_user_is_silent_noop (sessionAPI : SessionAPI) (user : option User)
    (g : Gesture) (w : World) :
  user = None \/
    (exists u, user = Some u /\ (email u = None \/ email u = Some EmptyString)) ->
  dispatch sessionAPI user g w = (Returned tt, w).
Proof.
  intros Hu. apply user_email_None in Hu.
  destruct g; unfold dispatch, fetchSessions, handleSaveSession,
    handleDeleteSession, handleSelectSession; rewrite Hu; reflexivity.
Qed.

Lemma no_user_is_silent_noop_witness :
  dispatch backend_ok (Some (mkUser (Some EmptyString))) (DeleteSession 1)
           (world_of (Some sessionA) [sessionA; sessionB])
  = (Returned tt, world_of (Some sessionA) [sessionA; sessionB]).
Proof.
  apply no_user_is_silent_noop.
  right. exists (mkUser (Some EmptyString)). split; [reflexivity | right; reflexivity].
Defined.

(** C10.  Selecting a session value whose identifier is absent
    ([undefined] or [0]) is a silent no-op: no [getSession] request, no
    notification, current session and list unchanged. *)
Theorem select_without_id_is_noop (sessionAPI : SessionAPI)
    (user : option User) (s : Session) (w : World) :
  id s = None \/ id s = Some 0 ->
  handleSelectSession sessionAPI user s w = (Returned tt, w).
Proof.
  intros Hid. apply truthy_id_None in Hid.
  unfold handleSelectSession. rewrite Hid.
  by destruct (user_email user).
Qed.

Lemma select_without_id_is_noop_witness :
  handleSelectSession backend_ok alice (mkSession (Some 0) None "draft")
                      (world_of (Some sessionA) [sessionA])
  = (Returned tt, world_of (Some sessionA) [sessionA]).
Proof.
  apply select_without_id_is_noop. right. reflexivity.
Defined.

(** C8.  For a signed-in user and a session [B] whose identifier is set,
    [handleSelectSession B] issues exactly [getSession(B.id, user)]; when it
    resolves, the returned record (not [B]) is the current session and the
    list is untouched; when it rejects, the store is unchanged. *)
Theorem select_fetches_full_record (sessionAPI : SessionAPI)
    (user : option User) (userId : string) (B : Session) (n : Z) (w : World) :
  user_email user = Some userId ->
  id B = Some n -> n <> 0 ->
  let w' := exec (dispatch sessionAPI user (SelectSession B)) w in
  outcome (dispatch sessionAPI user (SelectSession B)) w = Returned tt /\
  filter (fun ev => is_api_call ev = true) (trace w')
    = (filter (fun ev => is_api_call ev = true) (trace w)
         ++ [ApiGetSession n userId])%list /\
  (forall data, getSession sessionAPI n userId = inr data ->
     Store.session (store w') = Some data /\
     Store.sessions (store w') = Store.sessions (store w)) /\
  (forall e, getSession sessionAPI n userId = inl e -> store w' = store w).
Proof.
  intros Hu Hid Hn.
  assert (Ht : truthy_id (id B) = Some n) by by apply truthy_id_Some.
  unfold dispatch, handleSelectSession, outcome, exec. rewrite Hu, Ht.
  run_handler. destruct (getSession sessionAPI n userId) as [e|data]; simpl;
    rewrite ?filter_app; simpl; rewrite ?app_nil_r;
    (split; [done|]); (split; [done|]); split; intros ? [=]; subst; done.
Qed.

Lemma select_fetches_full_record_witness :
  Store.session
    (store (exec (dispatch backend_ok alice (SelectSession sessionB))
                 (world_of (Some sessionA) [sessionA; sessionB])))
  = Some (mkSession (Some 2) (Some "alice@example.org") "full").
Proof.
  assert (H2 : (2 : Z) <> 0) by lia.
  pose proof (select_fetches_full_record backend_ok alice "alice@example.org"
                sessionB 2 (world_of (Some sessionA) [sessionA; sessionB])
                eq_refl eq_refl H2) as (_ & _ & Hok & _).
  exact (proj1 (Hok _ eq_refl)).
Defined.

(** C7.  When [listSessions] resolves, the store's list is the returned
    sequence, and if no session was selected and the sequence is non-empty
    its element at index 0 becomes current (a selected session is kept);
    when it rejects, the store is unchanged, one error notification is
    shown and no second request is made. *)
Theorem fetchSessions_reconciles (sessionAPI : SessionAPI)
    (user : option User) (userId : string) (w : World) :
  user_email user = Some userId ->
  let w' := exec (dispatch sessionAPI user LoadSessions) w in
  outcome (dispatch sessionAPI user LoadSessions) w = Returned tt /\
  (forall data, listSessions sessionAPI userId = inr data ->
     Store.sessions (store w') = data /\
     (Store.session (store w) = None -> data <> [] ->
        is_Some (data !! 0%nat) /\
        Store.session (store w') = data !! 0%nat) /\
     (is_Some (Store.session (store w)) ->
        Store.session (store w') = Store.session (store w)) /\
     trace w' = (trace w ++ [ApiListSessions userId])%list) /\
  (forall e, listSessions sessionAPI userId = inl e ->
     store w' = store w /\
     trace w' = (trace w ++ [ApiListSessions userId;
                              ConsoleError "Error fetching sessions:";
                              MessageError "Error loading sessions"])%list).
Proof.
  intros Hu. unfold dispatch, fetchSessions, outcome, exec. rewrite Hu.
  run_handler.
  destruct (listSessions sessionAPI userId) as [e|data]; simpl.
  - split; [done|]. split; [done|]. intros ? [= <-]. split; [done|].
    by rewrite <- !app_assoc.
  - destruct (Store.session (store w)) as [cur|] eqn:Hcur;
      destruct data as [|first rest]; simpl;
      (split; [done|]); (split; [|done]); intros ? [= <-];
      repeat split; try done; eauto;
      try (by intros [? [=]]).
Qed.

Lemma fetchSessions_reconciles_witness :
  Store.sessions
    (store (exec (dispatch backend_ok alice LoadSessions) (world_of None [])))
  = [sessionA; sessionB].
Proof.
  pose proof (fetchSessions_reconciles backend_ok alice "alice@example.org"
                (world_of None []) eq_refl) as (_ & Hok & _).
  exact (proj1 (Hok _ eq_refl)).
Defined.

(** C4.  Saving a draft without identifier: when [createSession] resolves,
    the returned session is the head of the list, in front of the former
    list, it is the current session and the editor is closed; when it
    rejects, list, current session and editor state are as before and an
    error notification is shown. *)
Theorem create_prepends_and_selects (sessionAPI : SessionAPI)
    (user : option User) (userId : string) (sessionData : PartialSession)
    (w : World) :
  user_email user = Some userId ->
  p_id sessionData = None \/ p_id sessionData = Some 0 ->
  let w' := exec (dispatch sessionAPI user (SaveSession sessionData)) w in
  outcome (dispatch sessionAPI user (SaveSession sessionData)) w
    = Returned tt /\
  (forall created, createSession sessionAPI sessionData userId = inr created ->
     Store.sessions (store w') = created :: Store.sessions (store w) /\
     Store.session (store w') = Some created /\
     isEditorOpen w' = false /\ editingSession w' = None) /\
  (forall e, createSession sessionAPI sessionData userId = inl e ->
     store w' = store w /\
     isEditorOpen w' = isEditorOpen w /\
     editingSession w' = editingSession w /\
     MessageError "Error saving session" ∈ trace w').
Proof.
  intros Hu Hid. apply truthy_id_None in Hid.
  unfold dispatch, handleSaveSession, outcome, exec. rewrite Hu, Hid.
  run_handler.
  destruct (createSession sessionAPI sessionData userId) as [e|created]; simpl.
  - split; [done|]. split; [done|]. intros ? [= <-].
    repeat split; try done. set_solver.
  - split; [done|]. split; [|done]. by intros ? [= <-].
Qed.

Lemma create_prepends_and_selects_witness :
  Store.sessions
    (store (exec (dispatch backend_ok alice (SaveSession draft))
                 (world_of None [])))
  = [sessionC].
Proof.
  pose proof (create_prepends_and_selects backend_ok alice "alice@example.org"
                draft (world_of None []) eq_refl (or_introl eq_refl))
    as (_ & Hok & _).
  exact (proj1 (Hok _ eq_refl)).
Defined.

(** A successful update replaces entries in place, by identifier equality,
    so the identifiers of the list are the same as before. *)
Lemma update_list_ids (updated : Session) (l : list Session) :
  ids ((fun s => if decide (id s = id updated) then updated else s) <$> l)
  = ids l.
Proof.
  unfold ids. induction l as [|s l IH]; [done|].
  rewrite !fmap_cons, IH. by destruct (decide (id s = id updated)) as [->|].
Qed.

(** C3.  Saving a draft that carries an identifier: when [updateSession]
    resolves with [updated], every list entry whose identifier equals
    [updated.id] is [updated] (the others keep their place and value), and a
    current session with that identifier is replaced by the same [updated],
    so the current session and its list entry are equal. *)
Theorem update_replaces_entry_and_current (sessionAPI : SessionAPI)
    (user : option User) (userId : string) (sessionData : PartialSession)
    (n : Z) (updated : Session) (w : World) :
  user_email user = Some userId ->
  p_id sessionData = Some n -> n <> 0 ->
  updateSession sessionAPI n sessionData userId = inr updated ->
  let w' := exec (dispatch sessionAPI user (SaveSession sessionData)) w in
  length (Store.sessions (store w')) = length (Store.sessions (store w)) /\
  (forall i s, Store.sessions (store w) !! i = Some s ->
     Store.sessions (store w') !! i
     = Some (if decide (id s = id updated) then updated else s)) /\
  (forall cur, Store.session (store w) = Some cur -> id cur = id updated ->
     Store.session (store w') = Some updated /\
     forall s', s' ∈ Store.sessions (store w') -> id s' = id updated ->
       Store.session (store w') = Some s').
Proof.
  intros Hu Hid Hn Hupd.
  assert (Ht : truthy_id (p_id sessionData) = Some n) by by apply truthy_id_Some.
  unfold dispatch, handleSaveSession, exec. rewrite Hu, Ht.
  run_handler. rewrite Hupd. simpl.
  set (f := fun s => if decide (id s = id updated) then updated else s).
  case_bool_decide as Hb; simpl.
  - split; [by rewrite length_fmap|]. split.
    + intros i s Hs. by rewrite list_lookup_fmap, Hs.
    + intros cur Hcur Hc. split; [done|].
      intros s' Hin Hs'. apply list_elem_of_fmap in Hin as (s & -> & _).
      unfold f in *. by destruct (decide (id s = id updated)).
  - split; [by rewrite length_fmap|]. split.
    + intros i s Hs. by rewrite list_lookup_fmap, Hs.
    + intros cur Hcur Hc. rewrite Hcur in Hb. simpl in Hb. done.
Qed.

Lemma update_replaces_entry_and_current_witness :
  Store.session
    (store (exec (dispatch backend_ok alice (SaveSession draftB))
                 (world_of (Some sessionB) [sessionA; sessionB])))
  = Some (mkSession (Some 2) (Some "alice@example.org") "B2").
Proof.
  assert (H2 : (2 : Z) <> 0) by lia.
  pose proof (update_replaces_entry_and_current backend_ok alice
                "alice@example.org" draftB 2
                (mkSession (Some 2) (Some "alice@example.org") "B2")
                (world_of (Some sessionB) [sessionA; sessionB])
                eq_refl eq_refl H2 eq_refl) as (_ & _ & Hcur).
  exact (proj1 (Hcur sessionB eq_refl eq_refl)).
Defined.

(** What a successful delete leaves in the store: the filtered list, and a
    current session read from the list of the render, that is the list
    before the delete. *)
Lemma delete_success_store (sessionAPI : SessionAPI) (user : option User)
    (userId : string) (sessionId : Z) (w : World) :
  user_email user = Some userId ->
  deleteSession sessionAPI sessionId userId = inr tt ->
  store (exec (dispatch sessionAPI user (DeleteSession sessionId)) w)
  = Store.mk
      (if bool_decide (Store.session (store w) ≫= id = Some sessionId)
          || (length (Store.sessions (store w)) =? 0)%nat
       then Store.sessions (store w) !! 0%nat
       else Store.session (store w))
      (filter (fun s => id s ≠ Some sessionId) (Store.sessions (store w))).
Proof.
  intros Hu Hdel. unfold dispatch, handleDeleteSession, exec. rewrite Hu.
  unfold try_catch, await, mbind, M_bind, bind, emit. simpl. rewrite Hdel.
  unfold mret, M_ret, ret, setSessions. simpl.
  destruct (bool_decide _ || _); reflexivity.
Qed.

Lemma delete_removes_entry (sessionId : Z) (l : list Session) :
  Some sessionId ∉ ids (filter (fun s => id s ≠ Some sessionId) l).
Proof.
  unfold ids. intros Hin. apply list_elem_of_fmap in Hin as (s & Hs & Hin).
  apply list_elem_of_filter in Hin as [Hne _]. by apply Hne.
Qed.

(** The defect is not particular to one list: whenever the head of the
    list is the current session and is the one deleted, it stays current
    although it has left the list. *)
Lemma delete_head_stays_current (sessionAPI : SessionAPI)
    (user : option User) (userId : string) (sessionId : Z) (s : Session)
    (rest : list Session) (w : World) :
  user_email user = Some userId ->
  deleteSession sessionAPI sessionId userId = inr tt ->
  store w = Store.mk (Some s) (s :: rest) ->
  id s = Some sessionId ->
  let w' := exec (dispatch sessionAPI user (DeleteSession sessionId)) w in
  Store.session (store w') = Some s /\
  Some sessionId ∉ ids (Store.sessions (store w')).
Proof.
  intros Hu Hdel Hw Hs w'. subst w'.
  rewrite (delete_success_store _ _ userId) by done. rewrite Hw. simpl.
  rewrite Hs, bool_decide_eq_true_2 by done. simpl.
  split; [done|]. apply delete_removes_entry.
Qed.

(** C1.  On the list [[A; B]] with [A] current, a successful delete of [A]
    leaves the list [[B]], but the current session is still [A], the session
    that was deleted, and not [B]: the handler takes [sessions[0]] from the
    list as it was before the delete. *)
Theorem delete_current_keeps_deleted_session :
  let w' := exec (dispatch backend_ok alice (DeleteSession 1))
                 (world_of (Some sessionA) [sessionA; sessionB]) in
  outcome (dispatch backend_ok alice (DeleteSession 1))
          (world_of (Some sessionA) [sessionA; sessionB]) = Returned tt /\
  Store.sessions (store w') = [sessionB] /\
  Store.session (store w') = Some sessionA /\
  Store.session (store w') <> Some sessionB /\
  Store.session (store w') <> Store.sessions (store w') !! 0%nat.
Proof.
  vm_compute. repeat split; discriminate.
Qed.

(** ** Failures of the collaborator *)

(** Closes the goal left by a handler that ran into its [catch] block. *)
Ltac one_error_notification :=
  simpl; repeat split; eexists; rewrite !filter_app; simpl;
  by rewrite !app_nil_r.

(** C5.  For each of load, create, update, delete and select: when the
    request is rejected, the handler still returns normally (the error is
    caught inside it), the store's list and current session are exactly as
    before, and exactly one notification is added, an error one. *)
Theorem rejected_request_is_contained (sessionAPI : SessionAPI)
    (user : option User) (userId : string) (g : Gesture) (w : World) :
  user_email user = Some userId ->
  request_rejected sessionAPI userId g = true ->
  let w' := exec (dispatch sessionAPI user g) w in
  outcome (dispatch sessionAPI user g) w = Returned tt /\
  store w' = store w /\
  exists content,
    filter (fun ev => is_notification ev = true) (trace w')
    = (filter (fun ev => is_notification ev = true) (trace w)
         ++ [MessageError content])%list.
Proof.
  intros Hu Hrej.
  destruct g as [|sessionData|sessionId|selectedSession];
    unfold dispatch, fetchSessions, handleSaveSession, handleDeleteSession,
      handleSelectSession, outcome, exec; rewrite Hu; simpl in Hrej.
  - run_handler. destruct (listSessions sessionAPI userId); [|done].
    one_error_notification.
  - destruct (truthy_id (p_id sessionData)) as [sessionId|]; run_handler.
    + destruct (updateSession sessionAPI sessionId sessionData userId);
        [|done].
      one_error_notification.
    + destruct (createSession sessionAPI sessionData userId); [|done].
      one_error_notification.
  - run_handler. destruct (deleteSession sessionAPI sessionId userId);
      [|done].
    one_error_notification.
  - destruct (truthy_id (id selectedSession)) as [sessionId|]; [|done].
    run_handler. destruct (getSession sessionAPI sessionId userId); [|done].
    one_error_notification.
Qed.

Lemma rejected_request_is_contained_witness :
  store (exec (dispatch backend_down alice (DeleteSession 1))
              (world_of (Some sessionA) [sessionA; sessionB]))
  = Store.mk (Some sessionA) [sessionA; sessionB].
Proof.
  pose proof (rejected_request_is_contained backend_down alice
                "alice@example.org" (DeleteSession 1)
                (world_of (Some sessionA) [sessionA; sessionB])
                eq_refl eq_refl) as (_ & Hstore & _).
  exact Hstore.
Defined.

(** ** Sequences of handler runs *)

(** The list a save leaves behind. *)
Lemma save_sessions (sessionAPI : SessionAPI) (user : option User)
    (sessionData : PartialSession) (w : World) :
  Store.sessions
    (store (exec (dispatch sessionAPI user (SaveSession sessionData)) w))
  = match user_email user with
    | None => Store.sessions (store w)
    | Some userId =>
        match truthy_id (p_id sessionData) with
        | Some sessionId =>
            match updateSession sessionAPI sessionId sessionData userId with
            | inr updated =>
                (fun s => if decide (id s = id updated) then updated else s)
                  <$> Store.sessions (store w)
            | inl _ => Store.sessions (store w)
            end
        | None =>
            match createSession sessionAPI sessionData userId with
            | inr created => created :: Store.sessions (store w)
            | inl _ => Store.sessions (store w)
            end
        end
    end.
Proof.
  unfold dispatch, handleSaveSession, exec.
  destruct (user_email user) as [userId|]; [|done].
  destruct (truthy_id (p_id sessionData)) as [sessionId|]; run_handler.
  - destruct (updateSession sessionAPI sessionId sessionData userId); [done|].
    simpl. by case_bool_decide.
  - by destruct (createSession sessionAPI sessionData userId).
Qed.

(** The list a delete leaves behind. *)
Lemma delete_sessions (sessionAPI : SessionAPI) (user : option User)
    (sessionId : Z) (w : World) :
  Store.sessions
    (store (exec (dispatch sessionAPI user (DeleteSession sessionId)) w))
  = match user_email user with
    | None => Store.sessions (store w)
    | Some userId =>
        match deleteSession sessionAPI sessionId userId with
        | inr _ =>
            filter (fun s => id s ≠ Some sessionId) (Store.sessions (store w))
        | inl _ => Store.sessions (store w)
        end
    end.
Proof.
  unfold dispatch, handleDeleteSession, exec.
  destruct (user_email user) as [userId|]; [|done]. run_handler.
  destruct (deleteSession sessionAPI sessionId userId); [done|]. simpl.
  by destruct (bool_decide _ || _).
Qed.

(** The store a load leaves behind. *)
Lemma load_store (sessionAPI : SessionAPI) (user : option User) (w : World) :
  store (exec (dispatch sessionAPI user LoadSessions) w)
  = match user_email user with
    | None => store w
    | Some userId =>
        match listSessions sessionAPI userId with
        | inr data =>
            Store.mk
              (match Store.session (store w), data with
               | None, first :: _ => Some first
               | current, _ => current
               end)
              data
        | inl _ => store w
        end
    end.
Proof.
  run_handler. destruct (user_email user) as [userId|]; [|done]. simpl.
  destruct (listSessions sessionAPI userId) as [e|data]; [done|]. simpl.
  destruct (Store.session (store w)) as [cur|] eqn:Hcur;
    destruct data as [|first rest]; simpl; by rewrite ?Hcur.
Qed.

(** A select leaves the list alone. *)
Lemma select_sessions (sessionAPI : SessionAPI) (user : option User)
    (selectedSession : Session) (w : World) :
  Store.sessions
    (store (exec (dispatch sessionAPI user (SelectSession selectedSession)) w))
  = Store.sessions (store w).
Proof.
  run_handler.
  destruct (user_email user) as [userId|]; [|done].
  destruct (truthy_id (id selectedSession)) as [sessionId|]; [|done]. simpl.
  by destruct (getSession sessionAPI sessionId userId).
Qed.

Lemma filter_unique_ids (P : Session -> Prop) `{!forall s, Decision (P s)}
    (l : list Session) :
  NoDup (ids l) -> NoDup (ids (filter P l)).
Proof.
  intros Hl. eapply sublist_NoDup; [exact Hl|].
  unfold ids. apply fmap_sublist, sublist_filter.
Qed.

Lemma step_unique_ids (user : option User) (w : World)
    (op : SessionAPI * Gesture) :
  answer_keeps_ids_apart user w op ->
  unique_ids w -> unique_ids (step user w op).
Proof.
  destruct op as [sessionAPI g].
  unfold unique_ids, step, answer_keeps_ids_apart.
  simpl. intros Hanswer Hw.
  destruct g as [|sessionData|sessionId|selectedSession].
  - rewrite load_store.
    destruct (user_email user) as [userId|]; [|done].
    by destruct (listSessions sessionAPI userId).
  - rewrite save_sessions.
    destruct (user_email user) as [userId|]; [|done].
    destruct (truthy_id (p_id sessionData)) as [n|].
    + destruct (updateSession sessionAPI n sessionData userId); [done|].
      by rewrite update_list_ids.
    + destruct (createSession sessionAPI sessionData userId) as [|created];
        [done|].
      unfold ids in *. rewrite fmap_cons. by apply NoDup_cons.
  - rewrite delete_sessions.
    destruct (user_email user) as [userId|]; [|done].
    destruct (deleteSession sessionAPI sessionId userId); [done|].
    by apply filter_unique_ids.
  - by rewrite select_sessions.
Qed.

(** C2 (as amended).  Starting from a list with pairwise distinct
    identifiers, along every sequence of handler runs, the saves (create or
    update), deletes and selects of the user together with the loads the
    component issues by itself, in which each create is answered with an
    identifier that the list does not hold at that moment and each load
    with sessions of pairwise distinct identifiers, the list never holds
    two sessions with the same identifier. *)
Theorem handler_runs_keep_ids_unique (user : option User) (w : World)
    (ops : list (SessionAPI * Gesture)) :
  unique_ids w ->
  backend_keeps_ids_apart user w ops ->
  Forall unique_ids (run_states user w ops).
Proof.
  revert w. induction ops as [|op rest IH]; intros w Hw Hanswers; simpl.
  - by apply Forall_singleton.
  - destruct Hanswers as (Hop & Hrest).
    apply Forall_cons. split; [done|].
    apply IH; [|done]. by apply step_unique_ids.
Qed.

Lemma handler_runs_keep_ids_unique_witness :
  Forall unique_ids
    (run_states alice (world_of (Some sessionA) [sessionA; sessionB])
       [(backend_ok, SaveSession draft); (backend_ok, LoadSessions);
        (backend_ok, DeleteSession 1); (backend_ok, SaveSession draftB);
        (backend_ok, LoadSessions); (backend_ok, SelectSession sessionB);
        (backend_ok, LoadSessions)]).
Proof.
  apply handler_runs_keep_ids_unique.
  - unfold unique_ids. simpl. refine (bool_decide_unpack _ _); vm_compute; exact I.
  - simpl. repeat split; unfold answer_keeps_ids_apart; simpl; try exact I;
      refine (bool_decide_unpack _ _); vm_compute; exact I.
Defined.

(** C2 as stated fails, in two ways.  A create answered with the identifier
    of a listed session puts that identifier in the list twice.  And after
    a create answered with a new identifier, the load that the component
    then issues by itself stores whatever the backend lists, here two
    sessions under one identifier. *)
Lemma create_can_duplicate_ids :
  unique_ids (world_of (Some sessionA) [sessionA]) /\
  ~ unique_ids (step alice (world_of (Some sessionA) [sessionA])
                     (backend_reusing_id, SaveSession draft)) /\
  unique_ids (step alice (world_of (Some sessionA) [sessionA])
                   (backend_listing_twice, SaveSession draft)) /\
  ~ unique_ids (step alice
                  (step alice (world_of (Some sessionA) [sessionA])
                        (backend_listing_twice, SaveSession draft))
                  (backend_listing_twice, LoadSessions)).
Proof.
  split; [|split; [|split]].
  - refine (bool_decide_unpack _ _); vm_compute; exact I.
  - unfold unique_ids. vm_compute. intros Hdup.
    apply NoDup_cons in Hdup as [Hnotin _]. apply Hnotin. left.
  - refine (bool_decide_unpack _ _); vm_compute; exact I.
  - unfold unique_ids. vm_compute. intros Hdup.
    apply NoDup_cons in Hdup as [Hnotin _]. apply Hnotin. left.
Qed.

(** ** The sidebar flag *)

Lemma JSON_parse_stringify_bool (b : bool) :
  JSON_parse (JSON_stringify (JBool b)) = Some (JBool b).
Proof. by destruct b. Qed.




(** ** What every handler guarantees *)

(** Splits a handler that was unfolded by [run_handler] along the guards,
    the answer of the backend and the conditions of the source. *)
Ltac handler_cases :=
  repeat (simpl;
    match goal with
    | |- context [user_email ?u] => destruct (user_email u) eqn:?
    | |- context [truthy_id ?i] => destruct (truthy_id i) eqn:?
    | |- context [listSessions ?a ?u] => destruct (listSessions a u) eqn:?
    | |- context [createSession ?a ?d ?u] =>
        destruct (createSession a d u) eqn:?
    | |- context [updateSession ?a ?n ?d ?u] =>
        destruct (updateSession a n d u) eqn:?
    | |- context [deleteSession ?a ?n ?u] =>
        destruct (deleteSession a n u) eqn:?
    | |- context [getSession ?a ?n ?u] => destruct (getSession a n u) eqn:?
    | |- context [bool_decide ?P] => destruct (bool_decide P) eqn:?
    | |- context [(0 <? ?n)%nat] => destruct (0 <? n)%nat eqn:?
    | |- context [(?n =? 0)%nat] => destruct (n =? 0)%nat eqn:?
    end);
  simpl.

(** X1.  No handler lets an error escape: whatever the user, the backend's
    answer and the state, load, save, delete and select return normally. *)
Theorem handlers_never_throw (sessionAPI : SessionAPI) (user : option User)
    (g : Gesture) (w : World) :
  outcome (dispatch sessionAPI user g) w = Returned tt.
Proof.
  destruct g; run_handler; handler_cases; reflexivity.
Qed.

(** X2.  A gesture issues at most one request, and a request is always made
    for the signed-in user's address. *)
Theorem at_most_one_request (sessionAPI : SessionAPI) (user : option User)
    (g : Gesture) (w : World) :
  let w' := exec (dispatch sessionAPI user g) w in
  requests (trace w') = requests (trace w) \/
  exists ev,
    requests (trace w') = (requests (trace w) ++ [ev])%list /\
    is_Some (user_email user) /\
    request_user ev = user_email user.
Proof.
  unfold requests.
  destruct g; run_handler; handler_cases;
    rewrite ?filter_app; simpl; rewrite ?app_nil_r;
    first [ by left | right; eexists; split; [reflexivity|]; by eauto ].
Qed.

(** X3.  The loading flag is cleared when a load or a select with an
    identifier is over, whether the request resolved or was rejected. *)
Theorem loading_cleared_after_load_and_select (sessionAPI : SessionAPI)
    (user : option User) (userId : string) (g : Gesture) (w : World) :
  user_email user = Some userId ->
  g = LoadSessions \/
    (exists s n, g = SelectSession s /\ id s = Some n /\ n <> 0) ->
  isLoading (exec (dispatch sessionAPI user g) w) = false.
Proof.
  intros Hu [-> | (s & n & -> & Hid & Hn)].
  - run_handler. rewrite Hu. simpl. handler_cases; reflexivity.
  - assert (Ht : truthy_id (id s) = Some n) by by apply truthy_id_Some.
    run_handler. rewrite Hu, Ht. simpl. handler_cases; reflexivity.
Qed.

Lemma loading_cleared_after_load_and_select_witness :
  isLoading (exec (dispatch backend_down alice LoadSessions)
                  (mkWorld true false None (Store.mk None []) []))
  = false.
Proof.
  apply (loading_cleared_after_load_and_select backend_down alice
           "alice@example.org").
  - reflexivity.
  - left. reflexivity.
Defined.

(** X4.  What the handlers leave alone: only a save touches the editor
    cells, save and delete never touch the loading flag, and a select never
    changes the list. *)
Theorem handlers_frame (sessionAPI : SessionAPI) (user : option User)
    (g : Gesture) (w : World) :
  let w' := exec (dispatch sessionAPI user g) w in
  match g with
  | LoadSessions =>
      isEditorOpen w' = isEditorOpen w /\ editingSession w' = editingSession w
  | SaveSession _ => isLoading w' = isLoading w
  | DeleteSession _ =>
      isLoading w' = isLoading w /\
      isEditorOpen w' = isEditorOpen w /\ editingSession w' = editingSession w
  | SelectSession _ =>
      Store.sessions (store w') = Store.sessions (store w) /\
      isEditorOpen w' = isEditorOpen w /\ editingSession w' = editingSession w
  end.
Proof.
  destruct g; run_handler; handler_cases; repeat split.
Qed.

(** ** Delete, update and load in detail *)

(** X5.  After a successful delete the list is the former list without the
    entries of the deleted identifier: it is a sublist, and a session is
    listed exactly when it was listed under another identifier. *)
Theorem delete_keeps_exactly_the_others (sessionAPI : SessionAPI)
    (user : option User) (userId : string) (sessionId : Z) (w : World) :
  user_email user = Some userId ->
  deleteSession sessionAPI sessionId userId = inr tt ->
  let l := Store.sessions (store w) in
  let l' := Store.sessions
              (store (exec (dispatch sessionAPI user (DeleteSession sessionId)) w)) in
  l' `sublist_of` l /\
  forall s, s ∈ l' <-> s ∈ l /\ id s <> Some sessionId.
Proof.
  intros Hu Hdel l l'. subst l l'. rewrite delete_sessions, Hu, Hdel.
  split; [apply sublist_filter|].
  intros s. rewrite list_elem_of_filter. tauto.
Qed.

Lemma delete_keeps_exactly_the_others_witness :
  sessionB ∈ Store.sessions
    (store (exec (dispatch backend_ok alice (DeleteSession 1))
                 (world_of (Some sessionA) [sessionA; sessionB]))).
Proof.
  pose proof (delete_keeps_exactly_the_others backend_ok alice
                "alice@example.org" 1
                (world_of (Some sessionA) [sessionA; sessionB])
                eq_refl eq_refl) as [_ Hin].
  apply Hin. split.
  - simpl. apply list_elem_of_further, list_elem_of_here.
  - discriminate.
Defined.

(** X6.  Deleting a session that is not the current one, from a non-empty
    list, leaves the current session as it is. *)
Theorem delete_other_keeps_current (sessionAPI : SessionAPI)
    (user : option User) (userId : string) (sessionId : Z) (w : World) :
  user_email user = Some userId ->
  deleteSession sessionAPI sessionId userId = inr tt ->
  Store.session (store w) ≫= id <> Some sessionId ->
  Store.sessions (store w) <> [] ->
  Store.session
    (store (exec (dispatch sessionAPI user (DeleteSession sessionId)) w))
  = Store.session (store w).
Proof.
  intros Hu Hdel Hcur Hne.
  rewrite (delete_success_store _ _ userId) by done. simpl.
  rewrite bool_decide_eq_false_2 by done.
  by destruct (Store.sessions (store w)).
Qed.

Lemma delete_other_keeps_current_witness :
  Store.session
    (store (exec (dispatch backend_ok alice (DeleteSession 2))
                 (world_of (Some sessionA) [sessionA; sessionB])))
  = Some sessionA.
Proof.
  apply (delete_other_keeps_current backend_ok alice "alice@example.org" 2
           (world_of (Some sessionA) [sessionA; sessionB]));
    [reflexivity | reflexivity | discriminate | discriminate].
Defined.

(** X7.  Deleting the current session when the head of the list is another
    session selects that head, which is also the head of the new list. *)
Theorem delete_current_selects_other_head (sessionAPI : SessionAPI)
    (user : option User) (userId : string) (sessionId : Z)
    (cur h : Session) (rest : list Session) (w : World) :
  user_email user = Some userId ->
  deleteSession sessionAPI sessionId userId = inr tt ->
  store w = Store.mk (Some cur) (h :: rest) ->
  id cur = Some sessionId ->
  id h <> Some sessionId ->
  let w' := exec (dispatch sessionAPI user (DeleteSession sessionId)) w in
  Store.session (store w') = Some h /\
  Store.sessions (store w') !! 0%nat = Some h.
Proof.
  intros Hu Hdel Hw Hcur Hh w'. subst w'.
  rewrite (delete_success_store _ _ userId) by done. rewrite Hw. simpl.
  rewrite Hcur, bool_decide_eq_true_2 by done. simpl.
  split; [done|]. rewrite filter_cons. by destruct (decide (id h ≠ Some sessionId)).
Qed.

Lemma delete_current_selects_other_head_witness :
  Store.session
    (store (exec (dispatch backend_ok alice (DeleteSession 2))
                 (world_of (Some sessionB) [sessionA; sessionB])))
  = Some sessionA.
Proof.
  pose proof (delete_current_selects_other_head backend_ok alice
                "alice@example.org" 2 sessionB sessionA [sessionB]
                (world_of (Some sessionB) [sessionA; sessionB])
                eq_refl eq_refl eq_refl eq_refl) as H.
  apply H. discriminate.
Defined.

Lemma filter_keeps_all {A} (P : A -> Prop) `{!forall x, Decision (P x)}
    (l : list A) :
  (forall x, x ∈ l -> P x) -> filter P l = l.
Proof.
  induction l as [|x l IH]; intros Hall; [done|].
  rewrite filter_cons_True by (apply Hall; left).
  f_equal. apply IH. intros y Hy. apply Hall. by right.
Qed.

(** X8.  Deleting an identifier that is neither listed nor current leaves
    the store as it is; the request is still sent and its success shown. *)
Theorem delete_unknown_keeps_store (sessionAPI : SessionAPI)
    (user : option User) (userId : string) (sessionId : Z) (w : World) :
  user_email user = Some userId ->
  deleteSession sessionAPI sessionId userId = inr tt ->
  Some sessionId ∉ ids (Store.sessions (store w)) ->
  Store.session (store w) ≫= id <> Some sessionId ->
  Store.sessions (store w) <> [] ->
  let w' := exec (dispatch sessionAPI user (DeleteSession sessionId)) w in
  store w' = store w /\
  trace w' = (trace w ++ [ApiDeleteSession sessionId userId;
                           ConsoleLog "response";
                           MessageSuccess "Session deleted"])%list.
Proof.
  intros Hu Hdel Hnotin Hcur Hne w'. subst w'. split.
  - rewrite (delete_success_store _ _ userId) by done.
    rewrite bool_decide_eq_false_2 by done.
    assert (Hf : filter (fun s => id s ≠ Some sessionId)
                   (Store.sessions (store w)) = Store.sessions (store w)).
    { apply filter_keeps_all. intros s Hs Heq. apply Hnotin.
      unfold ids. rewrite <- Heq. by apply list_elem_of_fmap_2. }
    rewrite Hf. destruct (store w) as [c [|s l]]; done.
  - run_handler. rewrite Hu. simpl. rewrite Hdel. simpl.
    handler_cases; by rewrite <- !app_assoc.
Qed.

Lemma delete_unknown_keeps_store_witness :
  store (exec (dispatch backend_ok alice (DeleteSession 7))
              (world_of (Some sessionA) [sessionA; sessionB]))
  = Store.mk (Some sessionA) [sessionA; sessionB].
Proof.
  pose proof (delete_unknown_keeps_store backend_ok alice
                "alice@example.org" 7
                (world_of (Some sessionA) [sessionA; sessionB])
                eq_refl eq_refl) as H.
  apply H.
  - refine (bool_decide_unpack _ _); vm_compute; exact I.
  - discriminate.
  - discriminate.
Defined.

Lemma update_list_unlisted (updated : Session) (l : list Session) :
  id updated ∉ ids l ->
  (fun s => if decide (id s = id updated) then updated else s) <$> l = l.
Proof.
  unfold ids. induction l as [|s l IH]; intros Hnotin; [done|].
  rewrite fmap_cons in Hnotin. apply not_elem_of_cons in Hnotin as [Hs Hl].
  rewrite fmap_cons, IH by done.
  destruct (decide (id s = id updated)) as [Heq|]; [|done].
  by rewrite Heq in Hs.
Qed.

(** X9.  An update answered with a session whose identifier is neither
    listed nor the current one changes nothing in the store; the editor is
    closed all the same. *)
Theorem update_unlisted_keeps_store (sessionAPI : SessionAPI)
    (user : option User) (userId : string) (sessionData : PartialSession)
    (n : Z) (updated : Session) (w : World) :
  user_email user = Some userId ->
  p_id sessionData = Some n -> n <> 0 ->
  updateSession sessionAPI n sessionData userId = inr updated ->
  id updated ∉ ids (Store.sessions (store w)) ->
  Store.session (store w) ≫= id <> id updated ->
  let w' := exec (dispatch sessionAPI user (SaveSession sessionData)) w in
  store w' = store w /\ isEditorOpen w' = false /\ editingSession w' = None.
Proof.
  intros Hu Hid Hn Hupd Hnotin Hcur.
  assert (Ht : truthy_id (p_id sessionData) = Some n) by by apply truthy_id_Some.
  unfold dispatch, handleSaveSession, exec. rewrite Hu, Ht.
  run_handler. rewrite Hupd. simpl.
  rewrite update_list_unlisted by done.
  case_bool_decide as Hb; simpl; [done|].
  by destruct (store w).
Qed.

Lemma update_unlisted_keeps_store_witness :
  store (exec (dispatch backend_ok alice
                 (SaveSession (mkPartial (Some 9) None (Some "gone"))))
              (world_of (Some sessionA) [sessionA; sessionB]))
  = Store.mk (Some sessionA) [sessionA; sessionB].
Proof.
  assert (H9 : (9 : Z) <> 0) by lia.
  pose proof (update_unlisted_keeps_store backend_ok alice
                "alice@example.org" (mkPartial (Some 9) None (Some "gone")) 9
                (mkSession (Some 9) (Some "alice@example.org") "gone")
                (world_of (Some sessionA) [sessionA; sessionB])
                eq_refl eq_refl H9 eq_refl) as H.
  apply H.
  - refine (bool_decide_unpack _ _); vm_compute; exact I.
  - discriminate.
Defined.

(** X10.  Saving a draft that carries an identifier never changes which
    identifiers the list holds nor their order, whoever the user is and
    whatever the backend answers, even a session with another identifier
    than the one asked for. *)
Theorem save_with_id_keeps_ids (sessionAPI : SessionAPI)
    (user : option User) (sessionData : PartialSession) (n : Z) (w : World) :
  p_id sessionData = Some n -> n <> 0 ->
  ids (Store.sessions
         (store (exec (dispatch sessionAPI user (SaveSession sessionData)) w)))
  = ids (Store.sessions (store w)).
Proof.
  intros Hid Hn.
  assert (Ht : truthy_id (p_id sessionData) = Some n) by by apply truthy_id_Some.
  rewrite save_sessions, Ht.
  destruct (user_email user) as [userId|]; [|done].
  destruct (updateSession sessionAPI n sessionData userId); [done|].
  apply update_list_ids.
Qed.

Lemma save_with_id_keeps_ids_witness :
  ids (Store.sessions
         (store (exec (dispatch backend_ok alice (SaveSession draftB))
                      (world_of None [sessionA; sessionB]))))
  = [Some 1; Some 2].
Proof.
  assert (H2 : (2 : Z) <> 0) by lia.
  exact (save_with_id_keeps_ids backend_ok alice draftB 2
           (world_of None [sessionA; sessionB]) eq_refl H2).
Defined.

(** X11.  Loading twice from a backend that gives the same answer leaves
    the store as one load does: the second load does not move the
    selection. *)
Theorem load_twice_is_load_once (sessionAPI : SessionAPI)
    (user : option User) (w : World) :
  store (exec (dispatch sessionAPI user LoadSessions)
              (exec (dispatch sessionAPI user LoadSessions) w))
  = store (exec (dispatch sessionAPI user LoadSessions) w).
Proof.
  rewrite (load_store _ _ (exec _ w)), !load_store.
  destruct (user_email user) as [userId|]; [|done].
  destruct (listSessions sessionAPI userId) as [e|data]; [done|]. simpl.
  by destruct (Store.session (store w)), data.
Qed.

(** ** What the main pane shows *)

(** X12.  After a successful load the main pane shows a chat exactly when
    the returned list is non-empty: the chat of the session that was
    current, or else of the first session returned. *)
Theorem main_pane_after_load (sessionAPI : SessionAPI) (user : option User)
    (userId : string) (data : list Session) (w : World) :
  user_email user = Some userId ->
  listSessions sessionAPI userId = inr data ->
  mainPane (exec (dispatch sessionAPI user LoadSessions) w)
  = match data with
    | [] => NoSessionSelected
    | first :: _ => ChatView (default first (Store.session (store w)))
    end.
Proof.
  intros Hu Hlist. unfold mainPane. rewrite load_store, Hu, Hlist. simpl.
  by destruct (Store.session (store w)), data.
Qed.

Lemma main_pane_after_load_witness :
  mainPane (exec (dispatch backend_ok alice LoadSessions) (world_of None []))
  = ChatView sessionA.
Proof.
  exact (main_pane_after_load backend_ok alice "alice@example.org"
           [sessionA; sessionB] (world_of None []) eq_refl eq_refl).
Defined.

(** X13.  After a successful create the main pane shows the chat of the
    created session, whatever was shown before. *)
Theorem main_pane_after_create (sessionAPI : SessionAPI)
    (user : option User) (userId : string) (sessionData : PartialSession)
    (created : Session) (w : World) :
  user_email user = Some userId ->
  p_id sessionData = None \/ p_id sessionData = Some 0 ->
  createSession sessionAPI sessionData userId = inr created ->
  mainPane (exec (dispatch sessionAPI user (SaveSession sessionData)) w)
  = ChatView created.
Proof.
  intros Hu Hid Hcreate. apply truthy_id_None in Hid.
  unfold mainPane, dispatch, handleSaveSession, exec. rewrite Hu, Hid.
  run_handler. by rewrite Hcreate.
Qed.

Lemma main_pane_after_create_witness :
  mainPane (exec (dispatch backend_ok alice (SaveSession draft))
                 (world_of None []))
  = ChatView sessionC.
Proof.
  exact (main_pane_after_create backend_ok alice "alice@example.org" draft
           sessionC (world_of None []) eq_refl (or_introl eq_refl) eq_refl).
Defined.

(** X14.  When a successful delete empties the list, the main pane shows
    the placeholder, whatever the store keeps as current session. *)
Theorem main_pane_after_emptying_delete (sessionAPI : SessionAPI)
    (user : option User) (userId : string) (sessionId : Z) (w : World) :
  user_email user = Some userId ->
  deleteSession sessionAPI sessionId userId = inr tt ->
  Forall (fun s => id s = Some sessionId) (Store.sessions (store w)) ->
  mainPane (exec (dispatch sessionAPI user (DeleteSession sessionId)) w)
  = NoSessionSelected.
Proof.
  intros Hu Hdel Hall. unfold mainPane.
  rewrite delete_sessions, Hu, Hdel.
  assert (Hnil : filter (fun s => id s ≠ Some sessionId)
                   (Store.sessions (store w)) = []).
  { induction Hall as [|s l Hs _ IH]; [done|].
    by rewrite filter_cons_False by (intros Hne; by apply Hne). }
  rewrite Hnil. simpl. by destruct (Store.session _).
Qed.

Lemma main_pane_after_emptying_delete_witness :
  mainPane (exec (dispatch backend_ok alice (DeleteSession 1))
                 (world_of (Some sessionA) [sessionA]))
  = NoSessionSelected.
Proof.
  apply (main_pane_after_emptying_delete backend_ok alice
           "alice@example.org" 1 (world_of (Some sessionA) [sessionA]));
    [reflexivity | reflexivity |].
  apply Forall_cons. split; [reflexivity | apply Forall_nil_2].
Defined.

(** ** The editor *)

Lemma act_editor_consistent (user : option User) (a : Action) (w : World) :
  editor_consistent w -> editor_consistent (exec (act user a) w).
Proof.
  unfold editor_consistent. intros Hw.
  destruct a as [sessionAPI g| |]; simpl.
  - destruct g; run_handler; handler_cases; auto.
  - unfold onEditSession. run_handler. discriminate.
  - unfold onCancel. run_handler. done.
Qed.

(** X15.  Along every sequence of handlers and editor callbacks, a closed
    editor holds no session under edit: once [isEditorOpen] is false,
    [editingSession] is unset. *)
Theorem editor_stays_consistent (user : option User) (w : World)
    (l : list Action) :
  editor_consistent w -> editor_consistent (run user w l).
Proof.
  unfold run. revert w.
  induction l as [|a l IH]; intros w Hw; simpl; [done|].
  apply IH. by apply act_editor_consistent.
Qed.

Lemma editor_stays_consistent_witness :
  editor_consistent
    (run alice (world_of None [sessionA])
       [EditSession (Some sessionA); Handle backend_down (SaveSession draftB);
        Handle backend_ok (SaveSession draftB); EditSession None;
        CancelEditor]).
Proof.
  apply editor_stays_consistent. intros _. reflexivity.
Defined.

(** ** Retrying after a rejection *)

(** The store a handler leaves depends on the store it started from, not on
    the other cells. *)
Lemma dispatch_store_ext (sessionAPI : SessionAPI) (user : option User)
    (g : Gesture) (w1 w2 : World) :
  store w1 = store w2 ->
  store (exec (dispatch sessionAPI user g) w1)
  = store (exec (dispatch sessionAPI user g) w2).
Proof.
  destruct w1 as [l1 o1 e1 s1 t1], w2 as [l2 o2 e2 s2 t2]. simpl.
  intros ->. destruct g; run_handler; handler_cases; reflexivity.
Qed.

Lemma rejected_keeps_store (sessionAPI : SessionAPI) (user : option User)
    (userId : string) (g : Gesture) (w : World) :
  user_email user = Some userId ->
  request_rejected sessionAPI userId g = true ->
  store (exec (dispatch sessionAPI user g) w) = store w.
Proof.
  intros Hu Hrej.
  destruct g; simpl in Hrej; run_handler; rewrite Hu; simpl;
    handler_cases; try done; by destruct (store w).
Qed.

(** X16.  A rejected request costs nothing: repeating the gesture against
    a backend that answers leaves the store exactly as if the first attempt
    had been answered that way. *)
Theorem retry_after_rejection (down up : SessionAPI) (user : option User)
    (userId : string) (g : Gesture) (w : World) :
  user_email user = Some userId ->
  request_rejected down userId g = true ->
  store (run user w [Handle down g; Handle up g])
  = store (run user w [Handle up g]).
Proof.
  intros Hu Hrej. unfold run. simpl.
  apply dispatch_store_ext. by apply (rejected_keeps_store _ _ userId).
Qed.

Lemma retry_after_rejection_witness :
  store (run alice (world_of None [sessionA])
           [Handle backend_down (SaveSession draft);
            Handle backend_ok (SaveSession draft)])
  = store (run alice (world_of None [sessionA])
             [Handle backend_ok (SaveSession draft)]).
Proof.
  exact (retry_after_rejection backend_down backend_ok alice
           "alice@example.org" (SaveSession draft)
           (world_of None [sessionA]) eq_refl eq_refl).
Defined.

(** ** The sidebar flag, continued *)

(** X17.  Mounting and toggling write under ["sessionSidebar"] only: every
    other key of local storage keeps its value. *)
Theorem sidebar_writes_only_its_key (localStorage : Storage) (k : string) :
  k <> sidebarKey ->
  (forall value,
     window (onToggle (mkSidebar value (Some localStorage))) ≫= (.!! k)
     = localStorage !! k) /\
  (forall st, mount (Some localStorage) = Returned st ->
     window st ≫= (.!! k) = localStorage !! k).
Proof.
  intros Hk. split.
  - intros value. unfold onToggle, persistSidebarOpen. simpl.
    by rewrite lookup_insert_ne.
  - intros st. unfold mount, persistSidebarOpen.
    destruct (initialSidebarOpen (Some localStorage)); [|done].
    intros [= <-]. simpl. by rewrite lookup_insert_ne.
Qed.

Lemma sidebar_writes_only_its_key_witness :
  window (onToggle (mkSidebar (JBool true)
                      (Some ({[ "ara_config" := "null" ]} : Storage))))
    ≫= (.!! "ara_config")
  = Some "null".
Proof.
  assert (Hk : "ara_config" <> sidebarKey) by discriminate.
  pose proof (sidebar_writes_only_its_key {[ "ara_config" := "null" ]}
                "ara_config" Hk) as [Htoggle _].
  rewrite Htoggle. vm_compute. reflexivity.
Defined.

(** X18.  Once toggled, two more toggles bring back the same flag and the
    same stored text: toggling is an involution on the states it
    produces, whatever value the flag started from. *)
Theorem toggle_twice_restores (st : SidebarState) :
  onToggle (onToggle (onToggle st)) = onToggle st.
Proof.
  unfold onToggle, persistSidebarOpen. simpl. rewrite negb_involutive.
  destruct (window st) as [localStorage|]; [|done].
  by rewrite !insert_insert_eq.
Qed.

(** X19.  On a page with local storage the first render fails, with a
    [SyntaxError], exactly when a text is stored under the key and it is
    not JSON; otherwise it succeeds and the stored text is then the
    serialised flag. *)
Theorem mount_throws_iff_unparsable (localStorage : Storage) :
  (mount (Some localStorage) = Thrown SyntaxError <->
   exists text,
     localStorage !! sidebarKey = Some text /\ JSON_parse text = None) /\
  ((forall e, mount (Some localStorage) <> Thrown e) ->
   exists st,
     mount (Some localStorage) = Returned st /\
     window st
     = Some (<[sidebarKey := JSON_stringify (isSidebarOpen st)]> localStorage)).
Proof.
  unfold mount, initialSidebarOpen, persistSidebarOpen.
  destruct (localStorage !! sidebarKey) as [text|] eqn:Hstored.
  - destruct (JSON_parse text) as [value|] eqn:Hparse.
    + split; [|by eauto]. split; [done|].
      intros (text' & [= <-] & Hnone). congruence.
    + split; [|intros Hno; by destruct (Hno SyntaxError)].
      split; [by eauto|done].
  - split; [|by eauto]. split; [done|]. by intros (text & [=] & _).
Qed.

Lemma mount_throws_iff_unparsable_witness :
  exists st,
    mount (Some ({[ sidebarKey := " false " ]} : Storage)) = Returned st /\
    window st
    = Some (<[sidebarKey := JSON_stringify (isSidebarOpen st)]>
              ({[ sidebarKey := " false " ]} : Storage)).
Proof.
  apply (mount_throws_iff_unparsable {[ sidebarKey := " false " ]}).
  intros e. vm_compute. discriminate.
Defined.

(** ** Requests along a run *)

Lemma act_requests_length (user : option User) (a : Action) (w : World) :
  (length (requests (trace (exec (act user a) w)))
   <= length (requests (trace w)) + (if is_handle a then 1 else 0))%nat.
Proof.
  unfold requests. destruct a as [sessionAPI g| |]; simpl.
  - destruct g; run_handler; handler_cases;
      rewrite ?filter_app, ?length_app; simpl; lia.
  - unfold onEditSession. run_handler. lia.
  - unfold onCancel. run_handler. lia.
Qed.

(** X20.  Along any sequence of handler runs and editor callbacks, the
    number of requests sent is at most the number of handler runs in the
    sequence, a load run by the component's own effect counting as one of
    them; the editor callbacks send no request. *)
Theorem requests_bounded_by_handler_runs (user : option User) (w : World)
    (l : list Action) :
  (length (requests (trace (run user w l)))
   <= length (requests (trace w))
      + length (filter (fun a => is_handle a = true) l))%nat.
Proof.
  unfold run. revert w. induction l as [|a l IH]; intros w; simpl; [lia|].
  specialize (IH (exec (act user a) w)).
  pose proof (act_requests_length user a w) as Ha.
  rewrite filter_cons.
  destruct a; simpl in *; lia.
Qed.

(** ** RAView *)

(** X21.  After [fetchMessages] the view is loading; an answer, whatever
    its status, and an error both clear the flag, but a missing answer makes
    the success callback stop at a [TypeError] with the view still
    loading. *)
Theorem ra_loading_cleared_unless_answer_missing
    (serverUrl : option string) (user : option User) (st : RAView.State) :
  let st1 := RAView.fetchMessages serverUrl user st in
  RAView.loading st1 = true /\
  (forall d, fst (RAView.onSuccess (Some d) st1) = RAView.Done /\
             RAView.loading (snd (RAView.onSuccess (Some d) st1)) = false) /\
  (forall err, fst (RAView.onError err st1) = RAView.Done /\
               RAView.loading (snd (RAView.onError err st1)) = false) /\
  RAView.onSuccess None st1 = (RAView.TypeError, st1).
Proof.
  simpl. repeat split; unfold RAView.onSuccess;
    by destruct (RAView.a_status d).
Qed.

(** X22.  Only the error callback records an error: after a fetch answered
    with a failure status the error cell is empty although an error is
    notified, and the messages are replaced only by an answer with a
    success status. *)
Theorem ra_error_cell_after_fetch (serverUrl : option string)
    (user : option User) (st : RAView.State) :
  let st1 := RAView.fetchMessages serverUrl user st in
  (forall d,
     let st2 := snd (RAView.onSuccess (Some d) st1) in
     RAView.error st2 = None /\
     RAView.messages st2
     = (if RAView.a_status d then RAView.a_data d else RAView.messages st) /\
     (RAView.a_status d = false ->
        RAView.effects st2
        = (RAView.effects st1
             ++ [RAView.MessageError (RAView.a_message d)])%list)) /\
  (forall err,
     let st2 := snd (RAView.onError err st1) in
     RAView.error st2 = Some err /\
     RAView.messages st2 = RAView.messages st).
Proof.
  simpl. split.
  - intros d. unfold RAView.onSuccess.
    destruct (RAView.a_status d); simpl; repeat split; done.
  - intros err. by split.
Qed.

(** X23.  The first render always hands the [null] config to
    [setLocalStorage] under ["ara_config"].  It then fetches whenever a user
    object is there, with or without address: the request's [user_id] is
    the address, or the word [undefined] when there is none.  Without user
    object it makes no request and leaves loading flag, messages and error
    cell as they were. *)
Theorem ra_mount_fetches_for_any_user (serverUrl : option string)
    (user : option User) (st : RAView.State) :
  let st' := RAView.onMount serverUrl user st in
  match user with
  | Some u =>
      RAView.effects st'
      = (RAView.effects st
           ++ [RAView.SetLocalStorage "ara_config" JNull;
               RAView.FetchJSON
                 (default "undefined" serverUrl ++ "/messages?user_id="
                    ++ match email u with
                       | Some address => address
                       | None => "undefined"
                       end)])%list /\
      RAView.loading st' = true /\ RAView.error st' = None
  | None =>
      RAView.effects st'
      = (RAView.effects st
           ++ [RAView.SetLocalStorage "ara_config" JNull])%list /\
      RAView.loading st' = RAView.loading st /\
      RAView.messages st' = RAView.messages st /\
      RAView.error st' = RAView.error st
  end.
Proof.
  destruct user as [u|]; simpl; [|done].
  unfold RAView.fetchMessagesUrl, RAView.interpolate. simpl.
  rewrite <- app_assoc. by destruct (email u).
Qed.

Lemma ra_error_cell_after_fetch_witness :
  RAView.error
    (snd (RAView.onSuccess (Some (RAView.mkAnswer false "no such user" []))
            (RAView.fetchMessages (Some "http://localhost:8081/api") alice
               RAView.initial)))
  = None.
Proof.
  pose proof (ra_error_cell_after_fetch (Some "http://localhost:8081/api")
                alice RAView.initial) as [Hanswer _].
  exact (proj1 (Hanswer (RAView.mkAnswer false "no such user" []))).
Defined.

(** ** Update and selection *)

(** X24.  An update answered with a session whose identifier is not the
    current one's leaves the current session as it is. *)
Theorem update_other_keeps_current (sessionAPI : SessionAPI)
    (user : option User) (userId : string) (sessionData : PartialSession)
    (n : Z) (updated : Session) (w : World) :
  user_email user = Some userId ->
  p_id sessionData = Some n -> n <> 0 ->
  updateSession sessionAPI n sessionData userId = inr updated ->
  Store.session (store w) ≫= id <> id updated ->
  Store.session
    (store (exec (dispatch sessionAPI user (SaveSession sessionData)) w))
  = Store.session (store w).
Proof.
  intros Hu Hid Hn Hupd Hcur.
  assert (Ht : truthy_id (p_id sessionData) = Some n) by by apply truthy_id_Some.
  unfold dispatch, handleSaveSession, exec. rewrite Hu, Ht.
  run_handler. rewrite Hupd. simpl.
  by case_bool_decide.
Qed.

Lemma update_other_keeps_current_witness :
  Store.session
    (store (exec (dispatch backend_ok alice (SaveSession draftB))
                 (world_of (Some sessionA) [sessionA; sessionB])))
  = Some sessionA.
Proof.
  assert (H2 : (2 : Z) <> 0) by lia.
  apply (update_other_keeps_current backend_ok alice "alice@example.org"
           draftB 2 (mkSession (Some 2) (Some "alice@example.org") "B2")
           (world_of (Some sessionA) [sessionA; sessionB]));
    [reflexivity | reflexivity | exact H2 | reflexivity | discriminate].
Defined.

(** ** Any number of toggles *)

(** A state as a toggle leaves it: a boolean flag whose text is stored. *)
Lemma toggle_persisted (st : SidebarState) (localStorage : Storage) :
  window st = Some localStorage ->
  exists b ls,
    onToggle st
    = mkSidebar (JBool b) (Some (<[sidebarKey := JSON_stringify (JBool b)]> ls))
    /\ b = negb (ToBoolean (isSidebarOpen st)).
Proof.
  intros Hw. unfold onToggle, persistSidebarOpen. rewrite Hw. by eauto.
Qed.

Lemma iter_toggle_window (n : nat) (st : SidebarState)
    (localStorage : Storage) :
  window st = Some localStorage ->
  exists ls, window (Nat.iter n onToggle st) = Some ls.
Proof.
  intros Hw. induction n as [|n [ls IH]]; simpl; [by eauto|].
  unfold onToggle at 1, persistSidebarOpen. rewrite IH. by eauto.
Qed.

(** X25.  After any number of toggles, at least one, a reload starts from
    exactly the state the last toggle left, flag and storage, and the flag
    is a boolean that alternates with each toggle. *)
Theorem reload_after_toggles (n : nat) (value : JSON)
    (localStorage : Storage) :
  let st := Nat.iter (S n) onToggle (mkSidebar value (Some localStorage)) in
  mount (window st) = Returned st /\
  isSidebarOpen st
  = JBool (if Nat.even n then negb (ToBoolean value) else ToBoolean value).
Proof.
  cbn zeta. split.
  - destruct (iter_toggle_window n (mkSidebar value (Some localStorage))
                localStorage eq_refl) as [ls Hls].
    destruct (toggle_persisted _ _ Hls) as (b & ls' & Htoggle & _).
    rewrite Nat.iter_succ, Htoggle.
    unfold mount, initialSidebarOpen, persistSidebarOpen.
    cbn [isSidebarOpen window].
    rewrite lookup_insert_eq, JSON_parse_stringify_bool.
    by rewrite insert_insert_eq.
  - induction n as [|n IH]; [done|].
    rewrite Nat.iter_succ. unfold onToggle at 1.
    cbn [isSidebarOpen window]. rewrite IH. cbn [ToBoolean].
    rewrite Nat.even_succ, <- Nat.negb_even.
    by destruct (Nat.even n); rewrite ?negb_involutive.
Qed.
